(** * temp_extract.py: extraction of a backtick-delimited template literal

    A verification development for [src/temp_extract.py].  The script reads
    [src/index.ts], looks for the marker [const js = `], scans forward with a
    backslash-toggled escape flag until the closing backtick, and writes the
    scanned text, wrapped again in a template literal and followed by a
    [console.log], to [temp_eval.js].

    Modelling choices.
    - A Python [str] is a [string], a sequence of one-byte characters; the
      only characters the script tests are backslash and backtick, and
      positions count characters of this sequence.
    - The list [out] is a [list ascii]; [out[:-1]] is [removelast] and
      [''.join] is [string_of_list_ascii].
    - The file system is a finite map from paths to file contents; the
      script is a function from a file system to a file system and an
      outcome (normal end or uncaught exception).  Reading a path that
      holds no file raises; decoding and write failures are not modelled.
    - The [while] loop is defined by well-founded recursion on
      [len(data) - i]. *)

From Stdlib Require Import Ascii List Arith Bool Lia.
From Stdlib Require String.
From Equations Require Import Equations.
From Equations.Prop Require Import Logic.
From stdpp Require Import gmap strings.

(** ** Characters and constants of the script *)

(** ['\\'] in the source: one backslash, code 92. *)
Definition backslash : ascii := "092"%char.

(** ['`'] in the source: one backtick, code 96. *)
Definition backtick : ascii := "096"%char.

(** The escape [\n] of the f-string on line 22: one line feed, code 10. *)
Definition newline : ascii := "010"%char.

(** Line 4: [marker = "const js = `"]. *)
Definition marker : string := "const js = `".

(** Paths of lines 3 and 22. *)
Definition input_path : string := "src/index.ts".
Definition output_path : string := "temp_eval.js".

(** The f-string of line 22: the literal text before the hole [{content}],
    the hole, and the literal text after it. *)
Definition fstring (content : string) : string :=
  "const js = `" +:+ content +:+
  ("`;" +:+ String newline ("console.log(js);" +:+ String newline "")).

(** ** Exceptions and outcomes *)

Inductive exn : Type :=
| FileNotFoundError (path : string)
| IndexError (msg : string)
| ValueError (msg : string)
| RuntimeError (msg : string).

Inductive result (A : Type) : Type :=
| Ok (a : A)
| Raise (e : exn).
Arguments Ok {A} a.
Arguments Raise {A} e.

(** The diagnostic text an exception carries. *)
Definition message (e : exn) : string :=
  match e with
  | FileNotFoundError p => p
  | IndexError m => m
  | ValueError m => m
  | RuntimeError m => m
  end.

(** ** The scan loop, lines 6 to 20 *)

(** The variables the loop reads and writes. *)
Record scan_state : Type := mkState {
  i : nat;
  out : list ascii;
  escaped : bool
}.

(** What one pass through the loop body does to the control flow. *)
Inductive flow : Type :=
| Break (st : scan_state)
| Next (st : scan_state).

(** Lines 11 to 18, for the character [ch] read on line 10. *)
Definition loop_body (ch : ascii) (st : scan_state) : flow :=
  let out' := out st ++ [ch] in
  if Ascii.eqb ch backslash then
    Next (mkState (S (i st)) out' (negb (escaped st)))
  else
    if Ascii.eqb ch backtick && negb (escaped st) then
      Break (mkState (i st) out' (escaped st))
    else
      Next (mkState (S (i st)) out' false).

(** How the [while ... else] statement ends. *)
Inductive loop_exit : Type :=
| Broke (st : scan_state)
| Exhausted (st : scan_state)
| Raised (e : exn).

(** Lines 9 to 20.  [Exhausted] is the exit through the [else] clause,
    [Broke] the exit through [break]. *)
Equations? while_loop (data : string) (st : scan_state) : loop_exit
  by wf (String.length data - i st) lt :=
  while_loop data st with inspect (i st <? String.length data) := {
    | exist _ false _ := Exhausted st
    | exist _ true Hlt with String.get (i st) data := {
      | None := Raised (IndexError "string index out of range")
      | Some ch with inspect (loop_body ch st) := {
        | exist _ (Break st') _ := Broke st'
        | exist _ (Next st') Hb := while_loop data st' } } }.
Proof.
  (* every [Next] state has moved [i] one character on *)
  assert (Hi : i st' = S (i st)).
  { unfold loop_body in Hb.
    destruct (Ascii.eqb ch backslash); [injection Hb as <-; reflexivity|].
    destruct (Ascii.eqb ch backtick && negb (escaped st)); [discriminate|].
    injection Hb as <-; reflexivity. }
  apply Nat.ltb_lt in Hlt. lia.
Qed.

(** ** The script *)

(** Sequencing of statements that may raise. *)
#[global] Instance result_bind : MBind result := fun A B k r =>
  match r with
  | Ok a => k a
  | Raise e => Raise e
  end.

(** Line 5: [data.index(marker) + len(marker)].  [str.index] returns the
    lowest index at which the substring occurs and raises [ValueError]
    when there is none. *)
Definition find_start (data : string) : result nat :=
  match String.index 0 marker data with
  | Some p => Ok (p + String.length marker)
  | None => Raise (ValueError "substring not found")
  end.

(** Lines 6 to 20: the loop from its initial state, and the [else] clause. *)
Definition scan (data : string) (start : nat) : result scan_state :=
  match while_loop data (mkState start [] false) with
  | Broke st => Ok st
  | Exhausted _ => Raise (RuntimeError "No closing backtick found")
  | Raised e => Raise e
  end.

(** Line 21: [''.join(out[:-1])]. *)
Definition join_content (st : scan_state) : string :=
  String.string_of_list_ascii (removelast (out st)).

(** Lines 4 to 21: from the text read to the extracted content. *)
Definition extract (data : string) : result string :=
  start ← find_start data;
  st ← scan data start;
  Ok (join_content st).

(** A file system: the text of each file that exists. *)
Abbreviation filesystem := (gmap string string).

(** Line 3: [Path(...).read_text]. *)
Definition read_text (fs : filesystem) (path : string) : result string :=
  match fs !! path with
  | Some text => Ok text
  | None => Raise (FileNotFoundError path)
  end.

(** Line 22: [Path(...).write_text]: creates or overwrites. *)
Definition write_text (fs : filesystem) (path text : string) : filesystem :=
  <[path := text]> fs.

(** The whole script.  It returns the file system it leaves behind and how
    it ended. *)
Definition main (fs : filesystem) : filesystem * result unit :=
  match (data ← read_text fs input_path; extract data) with
  | Ok content => (write_text fs output_path (fstring content), Ok tt)
  | Raise e => (fs, Raise e)
  end.

(** ** The escape flag and the terminating delimiter *)

(** The value lines 12 to 17 give to [escaped] when the loop goes on after
    the character [ch]. *)
Definition flag_step (e : bool) (ch : ascii) : bool :=
  if Ascii.eqb ch backslash then negb e else false.

(** The flag after the characters of [s], scanned from flag [e]. *)
Fixpoint flag_after (e : bool) (s : string) : bool :=
  match s with
  | "" => e
  | String ch s' => flag_after (flag_step e ch) s'
  end.

(** Position [k] of [s] holds a backtick that the scan of [s], begun with
    flag [e], reaches with a clear flag. *)
Definition delimiter_at (e : bool) (s : string) (k : nat) : Prop :=
  String.get k s = Some backtick /\
  flag_after e (String.substring 0 k s) = false.

(** The least such position, computed along the string. *)
Fixpoint find_terminator (e : bool) (s : string) : option nat :=
  match s with
  | "" => None
  | String ch s' =>
      if Ascii.eqb ch backtick && negb e then Some 0
      else S <$> find_terminator (flag_step e ch) s'
  end.

(** ** Occurrences of a substring, and the text after a position *)

(** [sub] occurs in [s] at position [p]. *)
Definition occurs_at (sub s : string) (p : nat) : Prop :=
  String.substring p (String.length sub) s = sub.

(** [p] is the lowest position at which [sub] occurs in [s]. *)
Definition first_occurrence (sub s : string) (p : nat) : Prop :=
  occurs_at sub s p /\ forall q, q < p -> ~ occurs_at sub s q.

(** The text of [data] from position [start] on: [data[start:]]. *)
Definition text_from (data : string) (start : nat) : string :=
  String.substring start (String.length data - start) data.

(** ** Runs of backslashes *)

(** A run of [n] backslashes. *)
Fixpoint backslashes (n : nat) : string :=
  match n with
  | 0 => ""
  | S n' => String backslash (backslashes n')
  end.

(** ** Names of the specification, and sample inputs *)

(** A text in which the marker occurs twice and the first literal holds an
    escaped backtick. *)
Definition sample_text : string := "let x; const js = `a\`b`; const js = `c`".

(** A file system that holds this text, and one that also holds an output
    file left by something else. *)
Definition sample_fs : filesystem := {[ input_path := sample_text ]}.
Definition sample_fs_stale : filesystem :=
  {[ input_path := sample_text; output_path := "stale" ]}.

(** The pieces of the output text, as the specification names them. *)
Definition fixed_prefix : string := "const js = `".
Definition closing_sequence : string := "`;" +:+ String newline "".
Definition output_statement : string := "console.log(js);" +:+ String newline "".

Definition begins_with (s front : string) : Prop := exists rest, s = front +:+ rest.
Definition ends_with (s back : string) : Prop := exists rest, s = rest +:+ back.

(** ** The delimiter check, as the specification words it *)

(** The loop body as the sentence "the escape flag is cleared before
    checking" words it: for a character other than a backslash, the flag
    is cleared first and the delimiter check reads the cleared flag. *)
Definition loop_body_clearing_first (ch : ascii) (st : scan_state) : flow :=
  let out' := out st ++ [ch] in
  if Ascii.eqb ch backslash then
    Next (mkState (S (i st)) out' (negb (escaped st)))
  else
    let escaped' := false in
    if Ascii.eqb ch backtick && negb escaped' then
      Break (mkState (i st) out' escaped')
    else
      Next (mkState (S (i st)) out' escaped').

(** The claim that the flag is cleared before the check. *)
Definition flag_cleared_before_check : Prop :=
  forall ch st, loop_body ch st = loop_body_clearing_first ch st.

(** The state of the loop on [sample_text] when it reads the backtick that
    follows the backslash. *)
Definition at_escaped_backtick : scan_state :=
  mkState 21 ["a"%char; backslash] true.

(** ** Trailing runs of backslashes, and texts without backtick *)

(** The length of the run of backslashes that ends [s], given that a run of
    [n] backslashes stands just before [s]. *)
Fixpoint trailing_run (n : nat) (s : string) : nat :=
  match s with
  | "" => n
  | String ch s' => trailing_run (if Ascii.eqb ch backslash then S n else 0) s'
  end.

(** The number of consecutive backslashes at the end of [s]. *)
Definition trailing_backslashes (s : string) : nat := trailing_run 0 s.

(** The last character of [s], if any. *)
Fixpoint last_char (s : string) : option ascii :=
  match s with
  | "" => None
  | String ch "" => Some ch
  | String _ s' => last_char s'
  end.

(** [s] holds no backtick. *)
Definition no_backtick (s : string) : Prop :=
  forall j, String.get j s <> Some backtick.

(** * Properties *)

(** ** Facts about strings *)

(** [String.append] is kept folded by the reduction tactics; these two
    equations are its defining clauses. *)
Lemma str_app_nil_l (t : string) : "" +:+ t = t.
Proof. reflexivity. Qed.

Lemma str_app_cons (c : ascii) (s t : string) :
  String c s +:+ t = String c (s +:+ t).
Proof. reflexivity. Qed.

Ltac str_simpl := repeat (rewrite ?str_app_cons, ?str_app_nil_l; simpl).

Lemma str_length_app (s t : string) :
  String.length (s +:+ t) = String.length s + String.length t.
Proof. induction s as [|c s IH]; str_simpl; [reflexivity | now rewrite IH]. Qed.

Lemma str_app_assoc (s t u : string) : (s +:+ t) +:+ u = s +:+ t +:+ u.
Proof. induction s as [|c s IH]; str_simpl; [reflexivity | now rewrite IH]. Qed.

Lemma str_app_nil_r (s : string) : s +:+ "" = s.
Proof. induction s as [|c s IH]; str_simpl; [reflexivity | now rewrite IH]. Qed.

Lemma str_get_app_r (s t : string) (n : nat) :
  String.get (String.length s + n) (s +:+ t) = String.get n t.
Proof. rewrite Nat.add_comm. symmetry. apply String.append_correct2. Qed.

Lemma str_get_app_l (s t : string) (n : nat) :
  n < String.length s -> String.get n (s +:+ t) = String.get n s.
Proof. intros H. symmetry. now apply String.append_correct1. Qed.

Lemma str_get_lt (s : string) (n : nat) (c : ascii) :
  String.get n s = Some c -> n < String.length s.
Proof.
  revert n. induction s as [|a s IH]; intros [|n]; simpl; try discriminate.
  - lia.
  - intros H. apply IH in H. lia.
Qed.

Lemma str_get_in_range (s : string) (n : nat) :
  n < String.length s -> exists c, String.get n s = Some c.
Proof.
  revert n. induction s as [|a s IH]; intros [|n]; simpl; try lia.
  - intros _. now exists a.
  - intros H. apply IH. lia.
Qed.

Lemma str_get_ge (s : string) (n : nat) :
  String.length s <= n -> String.get n s = None.
Proof.
  revert n. induction s as [|a s IH]; intros [|n]; simpl; try reflexivity.
  - lia.
  - intros H. apply IH. lia.
Qed.

Lemma str_substring_length (s : string) (n m : nat) :
  String.length (String.substring n m s) = Nat.min m (String.length s - n).
Proof.
  revert n m. induction s as [|a s IH]; intros [|n] [|m]; simpl;
    try reflexivity; rewrite IH; simpl; lia.
Qed.

Lemma str_substring_all (s : string) : String.substring 0 (String.length s) s = s.
Proof. induction s as [|a s IH]; str_simpl; [reflexivity | now rewrite IH]. Qed.

(** Cutting a string at a position inside it. *)
Lemma str_split_at (s : string) (n : nat) :
  s = String.substring 0 n s +:+ String.substring n (String.length s - n) s.
Proof.
  revert n. induction s as [|a s IH]; intros [|n]; str_simpl; try reflexivity.
  - now rewrite str_substring_all.
  - now rewrite <- IH.
Qed.

Lemma str_substring_n_0 (s : string) (n : nat) : String.substring n 0 s = "".
Proof. revert n. induction s as [|a s IH]; intros [|n]; simpl; auto. Qed.

Lemma str_substring_app_l (s t : string) (m : nat) :
  m <= String.length s ->
  String.substring 0 m (s +:+ t) = String.substring 0 m s.
Proof.
  revert m. induction s as [|a s IH]; intros [|m]; str_simpl;
    rewrite ?str_substring_n_0; try reflexivity; try lia.
  intros H. rewrite IH by lia. reflexivity.
Qed.

Lemma str_substring_app_r (s t : string) (n m : nat) :
  String.substring (String.length s + n) m (s +:+ t) = String.substring n m t.
Proof. induction s as [|a s IH]; str_simpl; [reflexivity | exact IH]. Qed.

Lemma str_substring_substring (s : string) (n m k : nat) :
  k <= m ->
  String.substring 0 k (String.substring n m s) = String.substring n k s.
Proof.
  revert n m k. induction s as [|a s IH]; intros [|n] [|m] [|k] H; simpl;
    rewrite ?str_substring_n_0; try reflexivity; try lia.
  - rewrite IH by lia. reflexivity.
  - apply (IH n (S m) (S k)). lia.
Qed.

Lemma str_substring_snoc (s : string) (k : nat) (c : ascii) :
  String.get k s = Some c ->
  String.substring 0 (S k) s = String.substring 0 k s +:+ String c "".
Proof.
  revert k. induction s as [|a s IH]; intros [|k]; simpl; try discriminate.
  - intros [= ->]. rewrite str_substring_n_0. reflexivity.
  - intros H. rewrite (IH k H). reflexivity.
Qed.

Lemma str_to_list_app (s t : string) :
  String.list_ascii_of_string (s +:+ t) =
  String.list_ascii_of_string s ++ String.list_ascii_of_string t.
Proof. induction s as [|a s IH]; str_simpl; [reflexivity | now rewrite IH]. Qed.

(** ** The loop, one iteration at a time *)

(** The loop statement, one iteration unfolded. *)
Lemma while_loop_step data st :
  while_loop data st =
  if i st <? String.length data then
    match String.get (i st) data with
    | None => Raised (IndexError "string index out of range")
    | Some ch =>
        match loop_body ch st with
        | Break st' => Broke st'
        | Next st' => while_loop data st'
        end
    end
  else Exhausted st.
Proof.
  funelim (while_loop data st).
  - rewrite e. reflexivity.
  - rewrite Hlt, Heq. reflexivity.
  - rewrite Hlt, Heq, e. reflexivity.
  - rewrite Hlt, Heq, Hb. reflexivity.
Qed.

(** X1.  Line 10 is only reached below [len(data)]: whatever the text and
    the state of the loop, the cursor beyond the end of the text included,
    the loop ends by [break] or through its [else] clause and never by an
    [IndexError]. *)
Lemma while_loop_never_raises data st e : while_loop data st <> Raised e.
Proof.
  funelim (while_loop data st); try discriminate; [|auto].
  exfalso.
  match goal with
  | Hlt : (_ <? _) = true, Hget : String.get _ _ = None |- _ =>
      destruct (str_get_in_range _ _ (proj1 (Nat.ltb_lt _ _) Hlt)) as [c Hc];
      congruence
  end.
Qed.

Lemma loop_body_flag ch st st' :
  loop_body ch st = Next st' -> escaped st' = flag_step (escaped st) ch.
Proof.
  unfold loop_body, flag_step.
  destruct (Ascii.eqb ch backslash); [intros [= <-]; reflexivity|].
  destruct (Ascii.eqb ch backtick && negb (escaped st)); [discriminate|].
  intros [= <-]; reflexivity.
Qed.

(** One pass through the body, in terms of [flag_step]. *)
Lemma loop_body_cases ch st :
  loop_body ch st =
  if Ascii.eqb ch backtick && negb (escaped st)
  then Break (mkState (i st) (out st ++ [ch]) false)
  else Next (mkState (S (i st)) (out st ++ [ch]) (flag_step (escaped st) ch)).
Proof.
  unfold loop_body, flag_step.
  destruct (Ascii.eqb ch backslash) eqn:Hbs.
  - apply Ascii.eqb_eq in Hbs. subst ch. reflexivity.
  - destruct (Ascii.eqb ch backtick); [|reflexivity].
    destruct (escaped st); reflexivity.
Qed.

(** After one pass the flag is set only behind a backslash read with a
    clear flag; only a backtick read with a clear flag breaks. *)
Lemma loop_body_outcome ch st :
  match loop_body ch st with
  | Next st' => escaped st' = Ascii.eqb ch backslash && negb (escaped st)
  | Break st' => ch = backtick /\ escaped st = false
  end.
Proof.
  rewrite loop_body_cases. unfold flag_step.
  destruct (Ascii.eqb ch backtick) eqn:Hbt; destruct (escaped st); cbn;
    try (destruct (Ascii.eqb ch backslash); reflexivity).
  apply Ascii.eqb_eq in Hbt. now split.
Qed.

Lemma flag_after_app e s t :
  flag_after e (s +:+ t) = flag_after (flag_after e s) t.
Proof.
  revert e. induction s as [|c s IH]; intros e; str_simpl; [reflexivity|].
  apply IH.
Qed.

Lemma delimiter_at_0 e c s :
  delimiter_at e (String c s) 0 <-> c = backtick /\ e = false.
Proof.
  unfold delimiter_at. simpl.
  split; intros [H1 H2]; split; congruence.
Qed.

Lemma delimiter_at_S e c s k :
  delimiter_at e (String c s) (S k) <-> delimiter_at (flag_step e c) s k.
Proof. unfold delimiter_at. simpl. reflexivity. Qed.

Lemma delimiter_at_nil e k : ~ delimiter_at e "" k.
Proof. intros [H _]. destruct k; discriminate. Qed.

(** [find_terminator] returns the first unescaped delimiter. *)
Lemma find_terminator_Some e s k :
  find_terminator e s = Some k <->
  delimiter_at e s k /\ forall j, j < k -> ~ delimiter_at e s j.
Proof.
  revert e k. induction s as [|c s IH]; intros e k; simpl.
  - split; [discriminate|]. intros [H _]. now apply delimiter_at_nil in H.
  - destruct (Ascii.eqb c backtick && negb e) eqn:Hd.
    + apply andb_true_iff in Hd as [Hc He].
      apply Ascii.eqb_eq in Hc. apply negb_true_iff in He.
      split.
      * intros [= <-]. split; [now apply delimiter_at_0 | intros j Hj; lia].
      * intros [_ Hmin]. destruct k as [|k]; [reflexivity|].
        exfalso. apply (Hmin 0); [lia|]. now apply delimiter_at_0.
    + assert (H0 : ~ delimiter_at e (String c s) 0).
      { rewrite delimiter_at_0. intros [-> ->]. discriminate. }
      destruct k as [|k].
      * split.
        -- destruct (find_terminator (flag_step e c) s); discriminate.
        -- intros [H _]. contradiction.
      * rewrite delimiter_at_S. split.
        -- intros H.
           destruct (find_terminator (flag_step e c) s) as [k'|] eqn:Hf;
             simpl in H; [|discriminate].
           injection H as ->. apply IH in Hf as [Hk Hmin]. split; [exact Hk|].
           intros [|j] Hj; [exact H0|]. rewrite delimiter_at_S.
           apply Hmin. lia.
        -- intros [Hk Hmin].
           assert (Hs : find_terminator (flag_step e c) s = Some k).
           { apply IH. split; [exact Hk|]. intros j Hj.
             rewrite <- delimiter_at_S. apply Hmin. lia. }
           rewrite Hs. reflexivity.
Qed.

Lemma find_terminator_None e s :
  find_terminator e s = None <-> forall k, ~ delimiter_at e s k.
Proof.
  revert e. induction s as [|c s IH]; intros e; simpl.
  - split; [|reflexivity]. intros _ k. apply delimiter_at_nil.
  - destruct (Ascii.eqb c backtick && negb e) eqn:Hd.
    + apply andb_true_iff in Hd as [Hc He].
      apply Ascii.eqb_eq in Hc. apply negb_true_iff in He.
      split; [discriminate|]. intros H. exfalso. apply (H 0).
      now apply delimiter_at_0.
    + destruct (find_terminator (flag_step e c) s) as [k'|] eqn:Hf; simpl.
      * split; [discriminate|]. intros H. exfalso.
        apply find_terminator_Some in Hf as [Hk _].
        apply (H (S k')). now apply delimiter_at_S.
      * split; [|reflexivity]. intros _ [|k].
        -- rewrite delimiter_at_0. intros [-> ->]. discriminate.
        -- rewrite delimiter_at_S. now apply IH.
Qed.

(** ** The loop, read along the text *)

Lemma str_get_here (pre : string) (c : ascii) (s : string) :
  String.get (String.length pre) (pre +:+ String c s) = Some c.
Proof.
  rewrite <- (Nat.add_0_r (String.length pre)), str_get_app_r. reflexivity.
Qed.

Lemma str_app_snoc (pre : string) (c : ascii) (s : string) :
  (pre +:+ String c "") +:+ s = pre +:+ String c s.
Proof. rewrite str_app_assoc. reflexivity. Qed.

(** The loop started at the end of [pre] breaks at the first unescaped
    delimiter of [s], or runs to the end of the text when [s] has none.
    It never raises. *)
Lemma while_loop_scan (s pre : string) (o : list ascii) (e : bool) :
  while_loop (pre +:+ s) (mkState (String.length pre) o e) =
  match find_terminator e s with
  | Some k =>
      Broke (mkState (String.length pre + k)
               (o ++ String.list_ascii_of_string (String.substring 0 (S k) s))
               false)
  | None =>
      Exhausted (mkState (String.length pre + String.length s)
                   (o ++ String.list_ascii_of_string s)
                   (flag_after e s))
  end.
Proof.
  revert pre o e. induction s as [|c s IH]; intros pre o e.
  - rewrite while_loop_step. simpl.
    rewrite str_app_nil_r, Nat.ltb_irrefl, Nat.add_0_r, app_nil_r.
    reflexivity.
  - rewrite while_loop_step. cbn [i].
    rewrite str_length_app. simpl String.length.
    replace (String.length pre <? String.length pre + S (String.length s))
      with true by (symmetry; apply Nat.ltb_lt; lia).
    rewrite str_get_here, loop_body_cases. cbn [i out escaped].
    simpl find_terminator.
    destruct (Ascii.eqb c backtick && negb e) eqn:Hd.
    + rewrite Nat.add_0_r. simpl. rewrite str_substring_n_0. reflexivity.
    + rewrite <- (str_app_snoc pre c s).
      replace (S (String.length pre))
        with (String.length (pre +:+ String c "")) at 1
        by (rewrite str_length_app; simpl; lia).
      rewrite IH.
      rewrite str_length_app. simpl String.length.
      destruct (find_terminator (flag_step e c) s) as [k|]; simpl.
      * rewrite <- app_assoc. simpl. do 2 f_equal. lia.
      * rewrite <- app_assoc. simpl. do 2 f_equal. lia.
Qed.

(** ** Occurrences of the marker *)

Lemma marker_nonempty : marker <> "".
Proof. discriminate. Qed.

Lemma occurs_at_bound sub s p :
  sub <> "" -> occurs_at sub s p -> p + String.length sub <= String.length s.
Proof.
  intros Hne Hocc. unfold occurs_at in Hocc.
  apply (f_equal String.length) in Hocc.
  rewrite str_substring_length in Hocc.
  destruct sub; [congruence|]. cbn [String.length] in *. lia.
Qed.

Lemma index_first_occurrence sub s p :
  sub <> "" -> String.index 0 sub s = Some p <-> first_occurrence sub s p.
Proof.
  intros Hne. split.
  - intros H. split.
    + exact (String.index_correct1 _ _ _ _ H).
    + intros q Hq. apply (String.index_correct2 _ _ _ _ H); lia.
  - intros [Hocc Hmin].
    destruct (String.index 0 sub s) as [p'|] eqn:Hi.
    + f_equal.
      pose proof (String.index_correct1 _ _ _ _ Hi) as Hocc'.
      pose proof (String.index_correct2 _ _ _ _ Hi) as Hmin'.
      destruct (Nat.lt_trichotomy p' p) as [Hlt|[Heq|Hgt]]; [|exact Heq|].
      * exfalso. exact (Hmin p' Hlt Hocc').
      * exfalso. apply (Hmin' p); [lia|exact Hgt|exact Hocc].
    + exfalso. apply (String.index_correct3 0 p _ _ Hi Hne); [lia|exact Hocc].
Qed.

Lemma index_None sub s :
  sub <> "" -> String.index 0 sub s = None <-> forall p, ~ occurs_at sub s p.
Proof.
  intros Hne. split.
  - intros H p. apply (String.index_correct3 0 p _ _ H Hne). lia.
  - intros H. destruct (String.index 0 sub s) as [p|] eqn:Hi; [|reflexivity].
    exfalso. exact (H p (String.index_correct1 _ _ _ _ Hi)).
Qed.

Lemma find_start_first data p :
  first_occurrence marker data p ->
  find_start data = Ok (p + String.length marker).
Proof.
  intros H. apply (index_first_occurrence _ _ _ marker_nonempty) in H.
  unfold find_start. rewrite H. reflexivity.
Qed.

Lemma find_start_absent data :
  (forall p, ~ occurs_at marker data p) ->
  find_start data = Raise (ValueError "substring not found").
Proof.
  intros H. apply (index_None _ _ marker_nonempty) in H.
  unfold find_start. rewrite H. reflexivity.
Qed.

Lemma text_from_split data start :
  start <= String.length data ->
  data = String.substring 0 start data +:+ text_from data start /\
  String.length (String.substring 0 start data) = start.
Proof.
  intros H. split; [apply str_split_at|].
  rewrite str_substring_length. lia.
Qed.

Lemma text_from_length data start :
  String.length (text_from data start) = String.length data - start.
Proof. unfold text_from. rewrite str_substring_length. lia. Qed.

Lemma text_from_get data start j :
  String.get j (text_from data start) = String.get (start + j) data.
Proof.
  destruct (Nat.lt_ge_cases j (String.length data - start)) as [Hlt|Hge].
  - unfold text_from. rewrite String.substring_correct1 by exact Hlt.
    f_equal. lia.
  - rewrite !str_get_ge; [reflexivity|lia|].
    rewrite text_from_length. exact Hge.
Qed.

Lemma text_from_substring data start k :
  k <= String.length data - start ->
  String.substring 0 k (text_from data start) = String.substring start k data.
Proof. intros H. unfold text_from. now apply str_substring_substring. Qed.

(** The loop and line 21 together, from any start inside the text. *)
Lemma scan_from data start :
  start <= String.length data ->
  (st ← scan data start; Ok (join_content st)) =
  match find_terminator false (text_from data start) with
  | Some k => Ok (String.substring start k data)
  | None => Raise (RuntimeError "No closing backtick found")
  end.
Proof.
  intros Hle. destruct (text_from_split data start Hle) as [Hsplit Hlen].
  pose proof (while_loop_scan (text_from data start)
                (String.substring 0 start data) [] false) as Hloop.
  rewrite <- Hsplit, Hlen in Hloop.
  unfold scan. rewrite Hloop.
  destruct (find_terminator false (text_from data start)) as [k|] eqn:Hf;
    [|reflexivity].
  apply find_terminator_Some in Hf as [[Hget _] _].
  unfold mbind, result_bind, join_content. cbn [out]. f_equal.
  rewrite (str_substring_snoc _ _ _ Hget), str_to_list_app. simpl.
  rewrite removelast_last, String.string_of_list_ascii_of_string.
  apply text_from_substring.
  apply str_get_lt in Hget. rewrite text_from_length in Hget. lia.
Qed.

(** What [extract] returns, given where the marker first occurs. *)
Lemma extract_spec data p :
  first_occurrence marker data p ->
  extract data =
  match find_terminator false (text_from data (p + String.length marker)) with
  | Some k => Ok (String.substring (p + String.length marker) k data)
  | None => Raise (RuntimeError "No closing backtick found")
  end.
Proof.
  intros Hfirst. unfold extract.
  rewrite (find_start_first _ _ Hfirst).
  change (Ok (p + String.length marker) ≫= ?k) with (k (p + String.length marker)).
  apply scan_from. apply occurs_at_bound; [apply marker_nonempty | apply Hfirst].
Qed.

Lemma extract_absent data :
  (forall p, ~ occurs_at marker data p) ->
  extract data = Raise (ValueError "substring not found").
Proof. intros H. unfold extract. rewrite (find_start_absent _ H). reflexivity. Qed.

(** An unescaped delimiter of the text after [start], in positions of [data]. *)
Lemma delimiter_at_text_from data start k :
  start <= String.length data ->
  delimiter_at false (text_from data start) k <->
  String.get (start + k) data = Some backtick /\
  flag_after false (String.substring start k data) = false.
Proof.
  intros Hle. unfold delimiter_at. rewrite text_from_get.
  split; intros [Hget Hflag]; (split; [exact Hget|]);
    pose proof (str_get_lt _ _ _ Hget) as Hlt.
  - rewrite <- text_from_substring by lia. exact Hflag.
  - rewrite text_from_substring by lia. exact Hflag.
Qed.

(** When the marker occurs somewhere, it has a first occurrence. *)
Lemma first_occurrence_exists sub s q :
  sub <> "" -> occurs_at sub s q ->
  exists p, first_occurrence sub s p /\ p <= q.
Proof.
  intros Hne Hocc.
  destruct (String.index 0 sub s) as [p|] eqn:Hi.
  - exists p. split; [now apply index_first_occurrence|].
    destruct (Nat.le_gt_cases p q) as [Hle|Hgt]; [exact Hle|].
    exfalso. apply (String.index_correct2 _ _ _ _ Hi q); [lia|exact Hgt|exact Hocc].
  - exfalso. exact (proj1 (index_None _ _ Hne) Hi q Hocc).
Qed.

Lemma first_occurrence_unique sub s p q :
  first_occurrence sub s p -> first_occurrence sub s q -> p = q.
Proof.
  intros [Hp Hpmin] [Hq Hqmin].
  destruct (Nat.lt_trichotomy p q) as [Hlt|[Heq|Hgt]]; [|exact Heq|].
  - exfalso. exact (Hqmin p Hlt Hp).
  - exfalso. exact (Hpmin q Hgt Hq).
Qed.

(** ** Where extraction starts and what it returns *)

(** C1.  When the marker occurs in the text, line 5 yields the position just
    after its first occurrence, the loop is started there, and [extract]
    returns [content] exactly when
    [content] is the piece of the text from that position up to, and not
    including, the first backtick that the toggled escape flag leaves
    unescaped. *)
Theorem extract_from_first_marker (data : string) (q : nat) :
  occurs_at marker data q ->
  exists p,
    first_occurrence marker data p /\
    let start := p + String.length marker in
    find_start data = Ok start /\
    extract data = (st ← scan data start; Ok (join_content st)) /\
    forall content,
      extract data = Ok content <->
      exists k,
        content = String.substring start k data /\
        String.get (start + k) data = Some backtick /\
        flag_after false content = false /\
        forall j, j < k ->
          String.get (start + j) data = Some backtick ->
          flag_after false (String.substring start j data) = true.
Proof.
  intros Hocc.
  destruct (first_occurrence_exists _ _ _ marker_nonempty Hocc) as (p & Hfirst & _).
  exists p. split; [exact Hfirst|]. intros start.
  split; [now apply find_start_first|].
  split; [unfold extract; now rewrite (find_start_first _ _ Hfirst)|].
  assert (Hle : start <= String.length data).
  { apply occurs_at_bound; [apply marker_nonempty | apply Hfirst]. }
  intros content. rewrite (extract_spec _ _ Hfirst). fold start.
  destruct (find_terminator false (text_from data start)) as [k|] eqn:Hf.
  - apply find_terminator_Some in Hf as [Hk Hmin].
    apply (delimiter_at_text_from _ _ _ Hle) in Hk as [Hget Hflag].
    split.
    + intros [= <-]. exists k. repeat split; try assumption.
      intros j Hj Hgetj. apply not_false_iff_true. intros Hflagj.
      apply (Hmin j Hj). apply (delimiter_at_text_from _ _ _ Hle). now split.
    + intros (k' & -> & Hget' & Hflag' & Hmin'). f_equal.
      destruct (Nat.lt_trichotomy k k') as [Hlt|[Heq|Hgt]].
      * specialize (Hmin' k Hlt Hget). congruence.
      * now subst.
      * exfalso. apply (Hmin k' Hgt).
        apply (delimiter_at_text_from _ _ _ Hle). now split.
  - split; [discriminate|].
    intros (k' & -> & Hget' & Hflag' & _). exfalso.
    rewrite find_terminator_None in Hf. apply (Hf k').
    apply (delimiter_at_text_from _ _ _ Hle). now split.
Qed.

Lemma extract_from_first_marker_witness :
  occurs_at marker sample_text 7 /\
  exists p,
    first_occurrence marker sample_text p /\
    let start := p + String.length marker in
    find_start sample_text = Ok start /\
    extract sample_text = (st ← scan sample_text start; Ok (join_content st)) /\
    forall content,
      extract sample_text = Ok content <->
      exists k,
        content = String.substring start k sample_text /\
        String.get (start + k) sample_text = Some backtick /\
        flag_after false content = false /\
        forall j, j < k ->
          String.get (start + j) sample_text = Some backtick ->
          flag_after false (String.substring start j sample_text) = true.
Proof.
  split; [reflexivity|].
  apply (extract_from_first_marker _ 7). reflexivity.
Defined.

(** ** The script as a whole *)

Lemma main_read fs data :
  fs !! input_path = Some data ->
  main fs =
  match extract data with
  | Ok content => (write_text fs output_path (fstring content), Ok tt)
  | Raise e => (fs, Raise e)
  end.
Proof. intros H. unfold main, read_text. rewrite H. reflexivity. Qed.

Lemma fstring_pieces content :
  fstring content =
  fixed_prefix +:+ content +:+ closing_sequence +:+ output_statement.
Proof. reflexivity. Qed.

(** C2.  When the input file holds [data] and extraction returns [content],
    the script ends normally and the output file holds the fixed prefix, the
    content as extracted, the closing sequence and the output statement, in
    this order; so it begins with the prefix and ends with the statement. *)
Theorem output_is_template (fs : filesystem) (data content : string) :
  fs !! input_path = Some data ->
  extract data = Ok content ->
  exists fs',
    main fs = (fs', Ok tt) /\
    let text :=
      fixed_prefix +:+ content +:+ closing_sequence +:+ output_statement in
    fs' !! output_path = Some text /\
    begins_with text fixed_prefix /\
    ends_with text output_statement.
Proof.
  intros Hread Hext. eexists. split.
  - rewrite (main_read _ _ Hread), Hext. reflexivity.
  - cbn zeta. split; [|split].
    + unfold write_text. rewrite fstring_pieces. apply lookup_insert_eq.
    + eexists. reflexivity.
    + exists (fixed_prefix +:+ content +:+ closing_sequence).
      now rewrite !str_app_assoc.
Qed.

Lemma output_is_template_witness :
  sample_fs !! input_path = Some sample_text /\
  extract sample_text = Ok "a\`b" /\
  exists fs',
    main sample_fs = (fs', Ok tt) /\
    let text :=
      fixed_prefix +:+ "a\`b" +:+ closing_sequence +:+ output_statement in
    fs' !! output_path = Some text /\
    begins_with text fixed_prefix /\
    ends_with text output_statement.
Proof.
  split; [reflexivity|]. split; [reflexivity|].
  apply (output_is_template sample_fs sample_text); reflexivity.
Defined.

(** C3.  When the input file holds a text in which the marker occurs
    nowhere, the script ends with the [ValueError] of [str.index], which
    carries a message, and leaves the file system as it was: no output file
    is written. *)
Theorem marker_not_found (fs : filesystem) (data : string) :
  fs !! input_path = Some data ->
  (forall p, ~ occurs_at marker data p) ->
  main fs = (fs, Raise (ValueError "substring not found")) /\
  message (ValueError "substring not found") <> "".
Proof.
  intros Hread Habsent. split; [|discriminate].
  rewrite (main_read _ _ Hread), (extract_absent _ Habsent). reflexivity.
Qed.

Lemma marker_not_found_witness :
  ({[ input_path := "let js = `abc`" ]} : filesystem) !! input_path
    = Some "let js = `abc`" /\
  (forall p, ~ occurs_at marker "let js = `abc`" p) /\
  main {[ input_path := "let js = `abc`" ]}
    = ({[ input_path := "let js = `abc`" ]},
       Raise (ValueError "substring not found")) /\
  message (ValueError "substring not found") <> "".
Proof.
  assert (Habsent : forall p, ~ occurs_at marker "let js = `abc`" p).
  { apply (index_None _ _ marker_nonempty). reflexivity. }
  split; [reflexivity|]. split; [exact Habsent|].
  apply (marker_not_found _ "let js = `abc`"); [reflexivity | exact Habsent].
Defined.

(** C4.  When the input file holds a text in which the marker occurs, and
    no backtick from the end of its first occurrence to the end of the text
    is reached with a clear escape flag, the script ends with the
    [RuntimeError] of line 20, which carries a message, and leaves the file
    system as it was: no output file is written. *)
Theorem delimiter_not_found (fs : filesystem) (data : string) (p : nat) :
  fs !! input_path = Some data ->
  first_occurrence marker data p ->
  (forall k, ~ delimiter_at false (text_from data (p + String.length marker)) k) ->
  main fs = (fs, Raise (RuntimeError "No closing backtick found")) /\
  message (RuntimeError "No closing backtick found") <> "".
Proof.
  intros Hread Hfirst Hnone. split; [|discriminate].
  rewrite (main_read _ _ Hread), (extract_spec _ _ Hfirst).
  apply find_terminator_None in Hnone. rewrite Hnone. reflexivity.
Qed.

Lemma delimiter_not_found_witness :
  ({[ input_path := "const js = `a\`b" ]} : filesystem) !! input_path
    = Some "const js = `a\`b" /\
  first_occurrence marker "const js = `a\`b" 0 /\
  (forall k, ~ delimiter_at false
     (text_from "const js = `a\`b" (0 + String.length marker)) k) /\
  main {[ input_path := "const js = `a\`b" ]}
    = ({[ input_path := "const js = `a\`b" ]},
       Raise (RuntimeError "No closing backtick found")) /\
  message (RuntimeError "No closing backtick found") <> "".
Proof.
  assert (Hfirst : first_occurrence marker "const js = `a\`b" 0).
  { apply (index_first_occurrence _ _ _ marker_nonempty). reflexivity. }
  assert (Hnone : forall k, ~ delimiter_at false
            (text_from "const js = `a\`b" (0 + String.length marker)) k).
  { apply find_terminator_None. reflexivity. }
  split; [reflexivity|]. split; [exact Hfirst|]. split; [exact Hnone|].
  apply (delimiter_not_found _ "const js = `a\`b" 0);
    [reflexivity | exact Hfirst | exact Hnone].
Defined.

(** C9.  When the character just after the first occurrence of the marker
    is a backtick, extraction returns the empty content, and the script
    writes the output file: the fixed prefix, then at once the closing
    sequence and the output statement. *)
Theorem empty_literal (fs : filesystem) (data : string) (p : nat) :
  fs !! input_path = Some data ->
  first_occurrence marker data p ->
  String.get (p + String.length marker) data = Some backtick ->
  extract data = Ok "" /\
  main fs =
    (<[output_path := fixed_prefix +:+ closing_sequence +:+ output_statement]> fs,
     Ok tt).
Proof.
  intros Hread Hfirst Hget.
  assert (Hext : extract data = Ok "").
  { rewrite (extract_spec _ _ Hfirst).
    assert (Hf : find_terminator false
                   (text_from data (p + String.length marker)) = Some 0).
    { apply find_terminator_Some. split; [|intros j Hj; lia].
      split; [|now rewrite str_substring_n_0].
      rewrite text_from_get, Nat.add_0_r. exact Hget. }
    rewrite Hf, str_substring_n_0. reflexivity. }
  split; [exact Hext|].
  rewrite (main_read _ _ Hread), Hext. reflexivity.
Qed.

Lemma empty_literal_witness :
  ({[ input_path := "const js = ``;" ]} : filesystem) !! input_path
    = Some "const js = ``;" /\
  first_occurrence marker "const js = ``;" 0 /\
  String.get (0 + String.length marker) "const js = ``;" = Some backtick /\
  extract "const js = ``;" = Ok "" /\
  main {[ input_path := "const js = ``;" ]} =
    (<[output_path := fixed_prefix +:+ closing_sequence +:+ output_statement]>
       {[ input_path := "const js = ``;" ]},
     Ok tt).
Proof.
  assert (Hfirst : first_occurrence marker "const js = ``;" 0).
  { apply (index_first_occurrence _ _ _ marker_nonempty). reflexivity. }
  split; [reflexivity|]. split; [exact Hfirst|]. split; [reflexivity|].
  apply (empty_literal _ "const js = ``;" 0);
    [reflexivity | exact Hfirst | reflexivity].
Defined.

Lemma extract_Ok_first data content :
  extract data = Ok content -> exists p, first_occurrence marker data p.
Proof.
  unfold extract, find_start.
  destruct (String.index 0 marker data) as [p|] eqn:Hi; [|discriminate].
  intros _. exists p. now apply index_first_occurrence.
Qed.

(** C10.  When extraction returns [content], the content is the beginning of
    the text after the first marker; every backtick inside it stands where
    the toggled escape flag is set; the backtick just after it is reached
    with a clear flag; and no backtick of that text before it is: the
    content is the shortest beginning that an unescaped backtick follows. *)
Theorem terminator_is_first_unescaped (data content : string) :
  extract data = Ok content ->
  exists p,
    first_occurrence marker data p /\
    let region := text_from data (p + String.length marker) in
    String.substring 0 (String.length content) region = content /\
    (forall j, String.get j content = Some backtick ->
               flag_after false (String.substring 0 j content) = true) /\
    delimiter_at false region (String.length content) /\
    (forall k, delimiter_at false region k -> String.length content <= k).
Proof.
  intros Hext. destruct (extract_Ok_first _ _ Hext) as [p Hfirst].
  exists p. split; [exact Hfirst|]. intros region.
  rewrite (extract_spec _ _ Hfirst) in Hext. fold region in Hext.
  destruct (find_terminator false region) as [k|] eqn:Hf; [|discriminate].
  assert (Hc : content = String.substring (p + String.length marker) k data)
    by congruence.
  subst content. clear Hext.
  apply find_terminator_Some in Hf as [Hk Hmin].
  assert (Hklt : k < String.length data - (p + String.length marker)).
  { destruct Hk as [Hget _]. apply str_get_lt in Hget.
    unfold region in Hget. now rewrite text_from_length in Hget. }
  assert (Hcontent : String.substring (p + String.length marker) k data =
                     String.substring 0 k region).
  { unfold region. rewrite text_from_substring by lia. reflexivity. }
  assert (Hlen : String.length (String.substring (p + String.length marker) k data) = k).
  { rewrite str_substring_length. lia. }
  rewrite Hlen. repeat split.
  - now rewrite Hcontent.
  - intros j Hj. rewrite Hcontent in Hj |- *.
    assert (Hjk : j < k).
    { apply str_get_lt in Hj. rewrite str_substring_length in Hj. lia. }
    rewrite String.substring_correct1, Nat.add_0_r in Hj by exact Hjk.
    rewrite str_substring_substring by lia.
    apply not_false_iff_true. intros Hflag.
    apply (Hmin j Hjk). now split.
  - apply Hk.
  - apply Hk.
  - intros k' Hk'. destruct (Nat.le_gt_cases k k') as [Hle|Hgt]; [exact Hle|].
    exfalso. exact (Hmin k' Hgt Hk').
Qed.

Lemma terminator_is_first_unescaped_witness :
  extract sample_text = Ok "a\`b" /\
  exists p,
    first_occurrence marker sample_text p /\
    let region := text_from sample_text (p + String.length marker) in
    String.substring 0 (String.length "a\`b") region = "a\`b" /\
    (forall j, String.get j "a\`b" = Some backtick ->
               flag_after false (String.substring 0 j "a\`b") = true) /\
    delimiter_at false region (String.length "a\`b") /\
    (forall k, delimiter_at false region k -> String.length "a\`b" <= k).
Proof.
  split; [reflexivity|].
  apply (terminator_is_first_unescaped sample_text). reflexivity.
Defined.

Lemma paths_differ : output_path <> input_path.
Proof. discriminate. Qed.

(** Running the script again on the file system it left changes nothing. *)
Lemma main_again fs : main (main fs).1 = main fs.
Proof.
  unfold main, read_text.
  destruct (fs !! input_path) as [data|] eqn:Hread; simpl.
  - destruct (extract data) as [content|e] eqn:Hext; simpl.
    + unfold write_text.
      rewrite (lookup_insert_ne fs _ _ _ paths_differ), Hread. simpl.
      rewrite Hext. now rewrite insert_insert_eq.
    + rewrite Hread. simpl. rewrite Hext. reflexivity.
  - rewrite Hread. reflexivity.
Qed.

(** C8.  The outcome of the script and the text of the output file depend on
    nothing but what the input path holds, and a second run on the file
    system the first run left yields the same file system and outcome. *)
Theorem deterministic_in_input (fs1 fs2 : filesystem) :
  fs1 !! input_path = fs2 !! input_path ->
  (main fs1).2 = (main fs2).2 /\
  ((main fs1).2 = Ok tt ->
   (main fs1).1 !! output_path = (main fs2).1 !! output_path) /\
  main (main fs1).1 = main fs1.
Proof.
  intros Hsame. split; [|split; [|apply main_again]].
  - unfold main, read_text. rewrite Hsame.
    destruct (fs2 !! input_path) as [data|]; simpl; [|reflexivity].
    destruct (extract data); reflexivity.
  - unfold main, read_text. rewrite Hsame.
    destruct (fs2 !! input_path) as [data|]; simpl; [|discriminate].
    destruct (extract data); simpl; [|discriminate].
    intros _. unfold write_text. now rewrite !lookup_insert_eq.
Qed.

Lemma deterministic_in_input_witness :
  sample_fs !! input_path = sample_fs_stale !! input_path /\
  (main sample_fs).2 = (main sample_fs_stale).2 /\
  ((main sample_fs).2 = Ok tt ->
   (main sample_fs).1 !! output_path = (main sample_fs_stale).1 !! output_path) /\
  main (main sample_fs).1 = main sample_fs.
Proof.
  split; [reflexivity|].
  apply (deterministic_in_input sample_fs sample_fs_stale). reflexivity.
Defined.

(** ** More facts about substrings *)

Lemma str_substring_app_over (s t : string) (m : nat) :
  String.substring 0 (String.length s + m) (s +:+ t) = s +:+ String.substring 0 m t.
Proof. induction s as [|a s IH]; str_simpl; [reflexivity | now rewrite IH]. Qed.

Lemma str_substring_app_exact (s t : string) :
  String.substring 0 (String.length s) (s +:+ t) = s.
Proof.
  rewrite <- (Nat.add_0_r (String.length s)), str_substring_app_over.
  now rewrite str_substring_n_0, str_app_nil_r.
Qed.

(** ** Scanning a text in two parts *)

Lemma find_terminator_app e x y :
  find_terminator e (x +:+ y) =
  match find_terminator e x with
  | Some k => Some k
  | None => (fun k => String.length x + k) <$> find_terminator (flag_after e x) y
  end.
Proof.
  revert e. induction x as [|c x IH]; intros e; str_simpl.
  - destruct (find_terminator e y); reflexivity.
  - destruct (Ascii.eqb c backtick && negb e); [reflexivity|].
    rewrite IH.
    destruct (find_terminator (flag_step e c) x); [reflexivity|].
    destruct (find_terminator (flag_after (flag_step e c) x) y); reflexivity.
Qed.

(** The loop crosses a stretch [x] that holds no unescaped delimiter, and
    arrives behind it with the flag that [x] leaves. *)
Lemma while_loop_skip (pre x y : string) (o : list ascii) (e : bool) :
  find_terminator e x = None ->
  while_loop (pre +:+ x +:+ y) (mkState (String.length pre) o e) =
  while_loop (pre +:+ x +:+ y)
    (mkState (String.length pre + String.length x)
       (o ++ String.list_ascii_of_string x) (flag_after e x)).
Proof.
  intros Hx.
  pose proof (while_loop_scan y (pre +:+ x)
                (o ++ String.list_ascii_of_string x) (flag_after e x)) as Hy.
  rewrite str_app_assoc, str_length_app in Hy. rewrite Hy. clear Hy.
  rewrite while_loop_scan, find_terminator_app, Hx.
  destruct (find_terminator (flag_after e x) y) as [k|]; simpl.
  - replace (S (String.length x + k)) with (String.length x + S k) by lia.
    rewrite str_substring_app_over, str_to_list_app, <- app_assoc.
    do 2 f_equal. lia.
  - rewrite !str_length_app, str_to_list_app, flag_after_app, <- app_assoc.
    do 2 f_equal. lia.
Qed.

(** One iteration at the character that follows [pre]. *)
Lemma while_loop_here (pre : string) (c : ascii) (s : string) (o : list ascii) (e : bool) :
  while_loop (pre +:+ String c s) (mkState (String.length pre) o e) =
  match loop_body c (mkState (String.length pre) o e) with
  | Break st' => Broke st'
  | Next st' => while_loop (pre +:+ String c s) st'
  end.
Proof.
  rewrite while_loop_step. cbn [i]. rewrite str_get_here.
  replace (_ <? _) with true; [reflexivity|].
  symmetry. apply Nat.ltb_lt. rewrite str_length_app. simpl. lia.
Qed.

(** ** Runs of backslashes *)

Lemma backslashes_length n : String.length (backslashes n) = n.
Proof. induction n as [|n IH]; simpl; congruence. Qed.

Lemma backslashes_to_list n :
  String.list_ascii_of_string (backslashes n) = repeat backslash n.
Proof. induction n as [|n IH]; simpl; congruence. Qed.

Lemma flag_after_backslashes e n :
  flag_after e (backslashes n) = xorb e (Nat.odd n).
Proof.
  revert e. induction n as [|n IH]; intros e.
  - simpl. now rewrite xorb_false_r.
  - cbn [backslashes flag_after]. rewrite IH, Nat.odd_succ, <- Nat.negb_odd.
    unfold flag_step. simpl. destruct e, (Nat.odd n); reflexivity.
Qed.

Lemma find_terminator_backslashes e n : find_terminator e (backslashes n) = None.
Proof.
  revert e. induction n as [|n IH]; intros e; [reflexivity|].
  cbn [backslashes find_terminator]. simpl. now rewrite IH.
Qed.

Lemma first_occurrence_marker_front region :
  first_occurrence marker (marker +:+ region) 0.
Proof.
  split; [apply str_substring_app_exact | intros q Hq; lia].
Qed.

(** A text that begins with the marker: the scan runs over what follows. *)
Lemma extract_marker_front region :
  extract (marker +:+ region) =
  match find_terminator false region with
  | Some k => Ok (String.substring 0 k region)
  | None => Raise (RuntimeError "No closing backtick found")
  end.
Proof.
  rewrite (extract_spec _ 0 (first_occurrence_marker_front region)).
  assert (Hregion : text_from (marker +:+ region) (0 + String.length marker) = region).
  { unfold text_from. rewrite str_length_app.
    replace (0 + String.length marker) with (String.length marker + 0) by lia.
    rewrite str_substring_app_r.
    replace (_ - _) with (String.length region) by lia.
    apply str_substring_all. }
  rewrite Hregion.
  destruct (find_terminator false region) as [k|]; [|reflexivity].
  replace (0 + String.length marker) with (String.length marker + 0) by lia.
  now rewrite str_substring_app_r.
Qed.

Lemma odd_double m : Nat.odd (2 * m) = false.
Proof. rewrite Nat.odd_mul. reflexivity. Qed.

Lemma odd_double_succ m : Nat.odd (2 * m + 1) = true.
Proof. rewrite Nat.add_comm, Nat.odd_add_mul_2. reflexivity. Qed.

Lemma extract_even_run n rest :
  Nat.odd n = false ->
  extract (marker +:+ backslashes n +:+ String backtick rest) = Ok (backslashes n).
Proof.
  intros Hn. rewrite extract_marker_front, find_terminator_app.
  rewrite find_terminator_backslashes, flag_after_backslashes, Hn.
  cbn [xorb find_terminator]. change (Ascii.eqb backtick backtick) with true.
  cbn [andb negb fmap option_fmap option_map].
  rewrite backslashes_length, Nat.add_0_r.
  rewrite <- (backslashes_length n) at 1.
  now rewrite str_substring_app_exact.
Qed.

Lemma extract_odd_run n rest :
  Nat.odd n = true ->
  extract (marker +:+ backslashes n +:+ String backtick rest) =
  match extract (marker +:+ rest) with
  | Ok content => Ok (backslashes n +:+ String backtick content)
  | Raise e => Raise e
  end.
Proof.
  intros Hn. rewrite !extract_marker_front, find_terminator_app.
  rewrite find_terminator_backslashes, flag_after_backslashes, Hn.
  cbn [xorb find_terminator negb andb].
  rewrite andb_false_r.
  change (flag_step true backtick) with false.
  destruct (find_terminator false rest) as [k|];
    cbn [fmap option_fmap option_map]; [|reflexivity].
  rewrite backslashes_length.
  rewrite <- (backslashes_length n) at 1.
  rewrite str_substring_app_over. reflexivity.
Qed.

(** C5.  A backslash toggles the escape flag, and the flag is set behind no
    other character.  So the loop crosses a run of
    [n] backslashes and arrives behind it with the flag toggled [n] times:
    from a clear flag, as the marker or any other character leaves it, the
    flag is set exactly when [n] is odd.  A backtick that follows the run
    ends the scan when [n] is even; when [n] is odd the loop goes on behind
    that backtick with a clear flag.  For a text that begins with the
    marker: an even run before a backtick is the whole content, and an odd
    run and its backtick are the beginning of whatever the rest yields. *)
Theorem backslash_run_parity (pre rest : string) (n m : nat) (o : list ascii) :
  (forall st,
     loop_body backslash st =
     Next (mkState (S (i st)) (out st ++ [backslash]) (negb (escaped st)))) /\
  (forall ch st,
     match loop_body ch st with
     | Next st' => escaped st' = Ascii.eqb ch backslash && negb (escaped st)
     | Break st' => ch = backtick /\ escaped st = false
     end) /\
  (forall e,
     while_loop (pre +:+ backslashes n +:+ rest) (mkState (String.length pre) o e) =
     while_loop (pre +:+ backslashes n +:+ rest)
       (mkState (String.length pre + n) (o ++ repeat backslash n)
          (xorb e (Nat.odd n)))) /\
  while_loop (pre +:+ backslashes n) (mkState (String.length pre) o false) =
  Exhausted (mkState (String.length pre + n) (o ++ repeat backslash n) (Nat.odd n)) /\
  while_loop (pre +:+ backslashes n +:+ String backtick rest)
    (mkState (String.length pre) o false) =
  (if Nat.even n
   then Broke (mkState (String.length pre + n)
                 (o ++ repeat backslash n ++ [backtick]) false)
   else while_loop (pre +:+ backslashes n +:+ String backtick rest)
          (mkState (String.length pre + n + 1)
             (o ++ repeat backslash n ++ [backtick]) false)) /\
  extract (marker +:+ backslashes (2 * m) +:+ String backtick rest) =
  Ok (backslashes (2 * m)) /\
  extract (marker +:+ backslashes (2 * m + 1) +:+ String backtick rest) =
  match extract (marker +:+ rest) with
  | Ok content => Ok (backslashes (2 * m + 1) +:+ String backtick content)
  | Raise e => Raise e
  end.
Proof.
  assert (Hskip : forall tail e,
    while_loop (pre +:+ backslashes n +:+ tail) (mkState (String.length pre) o e) =
    while_loop (pre +:+ backslashes n +:+ tail)
      (mkState (String.length pre + n) (o ++ repeat backslash n)
         (xorb e (Nat.odd n)))).
  { intros tail e.
    rewrite (while_loop_skip _ _ _ _ _ (find_terminator_backslashes e n)).
    now rewrite backslashes_length, backslashes_to_list, flag_after_backslashes. }
  split; [|split; [|split; [|split; [|split; [|split]]]]].
  - intros st. reflexivity.
  - apply loop_body_outcome.
  - intros e. apply Hskip.
  - rewrite while_loop_scan, find_terminator_backslashes.
    now rewrite backslashes_length, backslashes_to_list, flag_after_backslashes.
  - rewrite Hskip. cbn [xorb].
    assert (Hlen : String.length pre + n = String.length (pre +:+ backslashes n))
      by now rewrite str_length_app, backslashes_length.
    rewrite <- (str_app_assoc pre), Hlen, while_loop_here, loop_body_cases.
    cbn [i out escaped]. rewrite <- Nat.negb_even, negb_involutive.
    destruct (Nat.even n); simpl; rewrite <- app_assoc; [reflexivity|].
    do 2 f_equal. lia.
  - apply extract_even_run, odd_double.
  - apply extract_odd_run, odd_double_succ.
Qed.

(** ** Escaped delimiters inside the content *)

(** A stretch [u] of the text after the first marker that holds no
    unescaped delimiter and leaves the flag clear, followed by a backtick,
    is what [extract] returns. *)
Lemma extract_decomposed data p u rest :
  first_occurrence marker data p ->
  text_from data (p + String.length marker) = u +:+ String backtick rest ->
  find_terminator false u = None ->
  flag_after false u = false ->
  extract data = Ok u.
Proof.
  intros Hfirst Hregion Hu Hflag.
  assert (Hle : p + String.length marker <= String.length data).
  { apply occurs_at_bound; [apply marker_nonempty | apply Hfirst]. }
  rewrite (extract_spec _ _ Hfirst).
  remember (p + String.length marker) as start eqn:Hstart. clear Hstart.
  rewrite Hregion, find_terminator_app, Hu, Hflag.
  simpl. rewrite Nat.add_0_r. f_equal.
  rewrite <- text_from_substring, Hregion.
  - apply str_substring_app_exact.
  - rewrite <- text_from_length, Hregion, str_length_app. lia.
Qed.

(** C6.  Let the text after the first marker be [x], a backslash, a
    backtick, [y], a backtick and anything, where [x] and [y] hold no
    unescaped delimiter and leave the flag clear (as any text without
    backslash and backtick does).  The backtick behind the backslash does
    not end the scan, the one behind [y] does, and the content returned
    holds the backslash and the escaped backtick as they stand in the
    text. *)
Theorem escaped_delimiter_kept (data : string) (p : nat) (x y rest : string) :
  first_occurrence marker data p ->
  text_from data (p + String.length marker) =
    x +:+ String backslash (String backtick y) +:+ String backtick rest ->
  (forall k, ~ delimiter_at false x k) -> flag_after false x = false ->
  (forall k, ~ delimiter_at false y k) -> flag_after false y = false ->
  extract data = Ok (x +:+ String backslash (String backtick y)).
Proof.
  intros Hfirst Hregion Hx Hxflag Hy Hyflag.
  apply find_terminator_None in Hx. apply find_terminator_None in Hy.
  apply (extract_decomposed data p _ rest Hfirst).
  - rewrite Hregion. now rewrite str_app_assoc.
  - rewrite find_terminator_app, Hx, Hxflag. simpl.
    change (flag_step (flag_step false backslash) backtick) with false.
    now rewrite Hy.
  - rewrite flag_after_app, Hxflag. simpl.
    change (flag_step (flag_step false backslash) backtick) with false.
    exact Hyflag.
Qed.

Lemma escaped_delimiter_kept_witness :
  first_occurrence marker sample_text 7 /\
  text_from sample_text (7 + String.length marker) =
    "a" +:+ String backslash (String backtick "b") +:+
    String backtick "; const js = `c`" /\
  (forall k, ~ delimiter_at false "a" k) /\ flag_after false "a" = false /\
  (forall k, ~ delimiter_at false "b" k) /\ flag_after false "b" = false /\
  extract sample_text = Ok ("a" +:+ String backslash (String backtick "b")).
Proof.
  assert (Hfirst : first_occurrence marker sample_text 7).
  { apply (index_first_occurrence _ _ _ marker_nonempty). reflexivity. }
  assert (Ha : forall k, ~ delimiter_at false "a" k).
  { apply find_terminator_None. reflexivity. }
  assert (Hb : forall k, ~ delimiter_at false "b" k).
  { apply find_terminator_None. reflexivity. }
  split; [exact Hfirst|]. split; [reflexivity|]. split; [exact Ha|].
  split; [reflexivity|]. split; [exact Hb|]. split; [reflexivity|].
  apply (escaped_delimiter_kept sample_text 7 "a" "b" "; const js = `c`");
    [exact Hfirst | reflexivity | exact Ha | reflexivity | exact Hb | reflexivity].
Defined.

(** ** The order of the delimiter check and the clearing of the flag *)

(** C7, as stated, fails: at the escaped backtick of [sample_text] the loop
    goes on, where a body that cleared the flag before the check would
    break. *)
Lemma flag_not_cleared_before_check : ~ flag_cleared_before_check.
Proof.
  intros H. specialize (H backtick at_escaped_backtick). discriminate H.
Qed.

(** C7, amended.  A backtick read with a clear flag ends the scan at its
    position.  The delimiter check reads the flag as the previous character
    left it, and the flag is cleared after the check, by line 17: after a
    character the flag is set only if that character is a backslash read
    with a clear flag.  A character read with a set flag never ends the
    scan and always leaves the flag clear, so the flag hides a delimiter at
    that one character only: a second backtick right behind an escaped one
    ends the scan. *)
Theorem delimiter_check_then_clear
    (n : nat) (o : list ascii) (pre rest : string) :
  loop_body backtick (mkState n o false) =
    Break (mkState n (o ++ [backtick]) false) /\
  (forall ch, loop_body ch (mkState n o true) =
              Next (mkState (S n) (o ++ [ch]) false)) /\
  (forall ch e,
     match loop_body ch (mkState n o e) with
     | Next st' => escaped st' = Ascii.eqb ch backslash && negb e
     | Break st' => ch = backtick /\ e = false
     end) /\
  while_loop (pre +:+ String backtick (String backtick rest))
    (mkState (String.length pre) o true) =
  Broke (mkState (S (String.length pre)) (o ++ [backtick; backtick]) false).
Proof.
  split; [|split; [|split]].
  - reflexivity.
  - intros ch. rewrite loop_body_cases. cbn [escaped i out].
    rewrite andb_false_r. unfold flag_step.
    destruct (Ascii.eqb ch backslash); reflexivity.
  - intros ch e. apply (loop_body_outcome ch (mkState n o e)).
  - rewrite while_loop_here, loop_body_cases. cbn [escaped i out andb negb].
    rewrite andb_false_r.
    change (flag_step true backtick) with false.
    rewrite <- (str_app_snoc pre backtick (String backtick rest)).
    replace (S (String.length pre))
      with (String.length (pre +:+ String backtick "")) at 1
      by (rewrite str_length_app; simpl; lia).
    rewrite while_loop_here, loop_body_cases. cbn [escaped i out].
    rewrite str_length_app, <- app_assoc. simpl. do 2 f_equal. lia.
Qed.

(** The scan of [sample_text] passes through [at_escaped_backtick]. *)
Example sample_scan_passes_escaped_backtick :
  while_loop sample_text (mkState 19 [] false) =
  while_loop sample_text at_escaped_backtick /\
  loop_body backtick at_escaped_backtick =
  Next (mkState 22 ["a"%char; backslash; backtick] false) /\
  extract sample_text = Ok ("a" +:+ String backslash (String backtick "b")).
Proof. repeat split; reflexivity. Qed.

(** Two and three backslashes before a backtick. *)
Example double_backslash_ends :
  extract ("const js = `a" +:+ backslashes 2 +:+ "`b`") = Ok ("a" +:+ backslashes 2).
Proof. reflexivity. Qed.

Example triple_backslash_escapes :
  extract ("const js = `a" +:+ backslashes 3 +:+ "`b`")
  = Ok ("a" +:+ backslashes 3 +:+ "`b").
Proof. reflexivity. Qed.

(** A literal without escapes. *)
Example plain_literal : extract "const js = `abc`" = Ok "abc".
Proof. reflexivity. Qed.

(** * Further properties of the script *)

(** ** Cutting and joining substrings *)

Lemma str_substring_add (s : string) (n m : nat) :
  String.substring 0 (n + m) s = String.substring 0 n s +:+ String.substring n m s.
Proof.
  revert n. induction s as [|a s IH]; intros [|n].
  - destruct m; reflexivity.
  - reflexivity.
  - rewrite str_substring_n_0. reflexivity.
  - cbn [Nat.add String.substring]. rewrite IH. reflexivity.
Qed.

Lemma str_substring_in_front (s t : string) (n m : nat) :
  n + m <= String.length s ->
  String.substring n m (s +:+ t) = String.substring n m s.
Proof.
  revert n m. induction s as [|a s IH]; intros n m; str_simpl.
  - intros H. assert (n = 0) by lia. assert (m = 0) by lia. subst.
    now rewrite str_substring_n_0.
  - destruct n as [|n]; destruct m as [|m]; intros H; try reflexivity.
    + rewrite (str_substring_app_l s t m) by lia. reflexivity.
    + apply IH. lia.
    + apply IH. lia.
Qed.

Lemma str_tail_at (s : string) (k : nat) (c : ascii) :
  String.get k s = Some c ->
  String.substring k (String.length s - k) s =
  String c (String.substring (S k) (String.length s - S k) s).
Proof.
  revert k. induction s as [|a s IH]; intros [|k]; try discriminate.
  - intros [= ->]. rewrite Nat.sub_0_r, str_substring_all.
    change (String.substring 1 (String.length (String c s) - 1) (String c s))
      with (String.substring 0 (String.length s - 0) s).
    now rewrite Nat.sub_0_r, str_substring_all.
  - intros H. cbn [String.get] in H. exact (IH k H).
Qed.

(** ** What a successful extraction tells *)

Lemma find_terminator_before e s k :
  find_terminator e s = Some k ->
  find_terminator e (String.substring 0 k s) = None /\
  flag_after e (String.substring 0 k s) = false.
Proof.
  revert e k. induction s as [|c s IH]; intros e k; [discriminate|].
  cbn [find_terminator].
  destruct (Ascii.eqb c backtick && negb e) eqn:Hd.
  - intros [= <-]. apply andb_true_iff in Hd as [_ He].
    apply negb_true_iff in He. now subst.
  - destruct (find_terminator (flag_step e c) s) as [k'|] eqn:Hf;
      cbn [fmap option_fmap option_map]; [|discriminate].
    intros [= <-]. destruct (IH _ _ Hf) as [Hnone Hflag].
    cbn [String.substring find_terminator flag_after].
    rewrite Hd, Hnone. now split.
Qed.

Lemma extract_Ok_inv data content :
  extract data = Ok content ->
  exists p k,
    first_occurrence marker data p /\
    find_terminator false (text_from data (p + String.length marker)) = Some k /\
    content = String.substring 0 k (text_from data (p + String.length marker)).
Proof.
  intros Hext. destruct (extract_Ok_first _ _ Hext) as [p Hfirst].
  rewrite (extract_spec _ _ Hfirst) in Hext.
  destruct (find_terminator false (text_from data (p + String.length marker)))
    as [k|] eqn:Hf; [|discriminate].
  exists p, k. split; [exact Hfirst|]. split; [exact Hf|].
  assert (Hc : content = String.substring (p + String.length marker) k data)
    by congruence.
  rewrite Hc. symmetry. apply text_from_substring.
  apply find_terminator_Some in Hf as [[Hget _] _].
  apply str_get_lt in Hget. rewrite text_from_length in Hget. lia.
Qed.

(** What a successful extraction says about the content alone. *)
Lemma extract_Ok_content data content :
  extract data = Ok content ->
  find_terminator false content = None /\ flag_after false content = false.
Proof.
  intros Hext. destruct (extract_Ok_inv _ _ Hext) as (p & k & _ & Hf & ->).
  now apply find_terminator_before.
Qed.

Lemma text_from_app_marker pre region :
  text_from (pre +:+ marker +:+ region) (String.length pre + String.length marker)
  = region.
Proof.
  unfold text_from. rewrite str_substring_app_r.
  pose proof (str_substring_app_r marker region 0) as H.
  rewrite Nat.add_0_r in H. rewrite H, !str_length_app.
  replace (_ - _) with (String.length region) by lia.
  apply str_substring_all.
Qed.

(** The text before the first marker plays no part. *)
Lemma extract_behind_prefix pre region :
  first_occurrence marker (pre +:+ marker +:+ region) (String.length pre) ->
  extract (pre +:+ marker +:+ region) = extract (marker +:+ region).
Proof.
  intros Hfirst. rewrite (extract_spec _ _ Hfirst), extract_marker_front.
  rewrite text_from_app_marker.
  destruct (find_terminator false region) as [k|]; [|reflexivity].
  f_equal. rewrite str_substring_app_r.
  pose proof (str_substring_app_r marker region 0) as H.
  rewrite Nat.add_0_r in H. apply H.
Qed.

(** The text splits around the marker and the content. *)
Lemma extract_Ok_split data content :
  extract data = Ok content ->
  exists pre rest,
    data = pre +:+ marker +:+ content +:+ String backtick rest /\
    first_occurrence marker data (String.length pre).
Proof.
  intros Hext. destruct (extract_Ok_inv _ _ Hext) as (p & k & Hfirst & Hf & ->).
  pose proof (occurs_at_bound _ _ _ marker_nonempty (proj1 Hfirst)) as Hle.
  set (start := p + String.length marker) in *.
  set (region := text_from data start) in *.
  apply find_terminator_Some in Hf as [[Hget _] _].
  exists (String.substring 0 p data),
         (String.substring (S k) (String.length region - S k) region).
  assert (Hplen : String.length (String.substring 0 p data) = p).
  { rewrite str_substring_length. lia. }
  rewrite Hplen. split; [|exact Hfirst].
  rewrite <- (str_tail_at _ _ _ Hget), <- str_split_at.
  destruct Hfirst as [Hocc _]. unfold occurs_at in Hocc.
  rewrite <- Hocc at 1. rewrite <- str_app_assoc, <- str_substring_add.
  apply str_split_at.
Qed.

(** ** Where the marker can first occur *)

Lemma marker_backtick_last j :
  j < 11 -> String.get j marker <> Some backtick.
Proof.
  intros Hj. do 11 (destruct j as [|j]; [discriminate|]). lia.
Qed.

(** The marker ends in a backtick and holds no other: behind a text without
    a backtick its first occurrence is the one written out. *)
Lemma first_occurrence_behind_clean pre region :
  no_backtick pre ->
  first_occurrence marker (pre +:+ marker +:+ region) (String.length pre).
Proof.
  intros Hclean. split.
  - unfold occurs_at.
    rewrite <- (Nat.add_0_r (String.length pre)), str_substring_app_r.
    apply str_substring_app_exact.
  - intros q Hq Hocc. unfold occurs_at in Hocc.
    assert (Hget : String.get (q + 11) (pre +:+ marker +:+ region) = Some backtick).
    { replace (q + 11) with (11 + q) by lia.
      rewrite <- (String.substring_correct1 _ q (String.length marker) 11)
        by (simpl; lia).
      rewrite Hocc. reflexivity. }
    destruct (Nat.lt_ge_cases (q + 11) (String.length pre)) as [Hin|Hout].
    + rewrite str_get_app_l in Hget by exact Hin. exact (Hclean _ Hget).
    + replace (q + 11) with (String.length pre + (q + 11 - String.length pre))
        in Hget by lia.
      rewrite str_get_app_r, str_get_app_l in Hget by (simpl; lia).
      apply (marker_backtick_last (q + 11 - String.length pre)); [lia|exact Hget].
Qed.

(** An occurrence of the marker that ends inside [front] does not depend on
    what follows [front]. *)
Lemma first_occurrence_front front rest rest' p :
  p + String.length marker <= String.length front ->
  first_occurrence marker (front +:+ rest) p ->
  first_occurrence marker (front +:+ rest') p.
Proof.
  intros Hle [Hocc Hmin]. unfold occurs_at in *. split.
  - unfold occurs_at. rewrite str_substring_in_front by exact Hle.
    rewrite str_substring_in_front in Hocc by exact Hle. exact Hocc.
  - intros q Hq Hq'. apply (Hmin q Hq). unfold occurs_at in Hq'.
    rewrite str_substring_in_front by lia.
    rewrite str_substring_in_front in Hq' by lia. exact Hq'.
Qed.

(** ** The flag as the parity of a run *)

Lemma backslashes_snoc n s :
  backslashes n +:+ String backslash s = String backslash (backslashes n +:+ s).
Proof. induction n as [|n IH]; str_simpl; [reflexivity | now rewrite IH]. Qed.

Lemma last_char_app s c t : last_char (s +:+ String c t) = last_char (String c t).
Proof.
  induction s as [|a s IH]; str_simpl; [reflexivity|].
  destruct (s +:+ String c t) eqn:Hs; [|exact IH].
  destruct s; discriminate.
Qed.

Lemma flag_after_trailing_run n e s :
  e = Nat.odd n -> flag_after e s = Nat.odd (trailing_run n s).
Proof.
  revert n e. induction s as [|c s IH]; intros n e He; [exact He|].
  cbn [flag_after trailing_run]. apply IH. unfold flag_step.
  destruct (Ascii.eqb c backslash); [|reflexivity].
  now rewrite Nat.odd_succ, <- Nat.negb_odd, He.
Qed.

Lemma trailing_run_spec n s :
  exists t,
    backslashes n +:+ s = t +:+ backslashes (trailing_run n s) /\
    last_char t <> Some backslash.
Proof.
  revert n. induction s as [|c s IH]; intros n.
  - exists "". rewrite str_app_nil_r. split; [reflexivity | discriminate].
  - cbn [trailing_run]. destruct (Ascii.eqb c backslash) eqn:Hc.
    + apply Ascii.eqb_eq in Hc. subst c. rewrite backslashes_snoc.
      exact (IH (S n)).
    + destruct (IH 0) as (t & Ht & Hlast). rewrite str_app_nil_l in Ht.
      exists (backslashes n +:+ String c t). split.
      * rewrite str_app_assoc, str_app_cons. now rewrite <- Ht.
      * rewrite last_char_app. apply Ascii.eqb_neq in Hc.
        destruct t; [intros [= ->]; contradiction | exact Hlast].
Qed.

Lemma flag_after_parity s :
  flag_after false s = Nat.odd (trailing_backslashes s).
Proof. now apply flag_after_trailing_run. Qed.

Lemma flag_after_set_last e s :
  s <> "" -> flag_after e s = true -> last_char s = Some backslash.
Proof.
  revert e. induction s as [|c s IH]; intros e Hne; [contradiction|].
  cbn [flag_after]. destruct s as [|c' s].
  - cbn. unfold flag_step. destruct (Ascii.eqb c backslash) eqn:Hc; [|discriminate].
    apply Ascii.eqb_eq in Hc. now subst.
  - intros H. apply (IH _ ltac:(discriminate) H).
Qed.

Lemma last_char_get s :
  last_char s = match String.length s with
                | 0 => None
                | S n => String.get n s
                end.
Proof.
  induction s as [|c s IH]; [reflexivity|].
  destruct s as [|c' s]; [reflexivity|].
  change (last_char (String c (String c' s))) with (last_char (String c' s)).
  rewrite IH. reflexivity.
Qed.


(** ** Outcomes, postcondition and frame *)

(** X2.  [extract] ends in exactly one of three ways, each with its own
    cause: [ValueError] exactly when the marker occurs nowhere,
    [RuntimeError] exactly when the marker occurs and the text behind its
    first occurrence holds no unescaped backtick, a content exactly when it
    holds one.  No other exception leaves [extract]. *)
Theorem extract_outcomes (data : string) :
  (extract data = Raise (ValueError "substring not found") <->
   forall p, ~ occurs_at marker data p) /\
  (extract data = Raise (RuntimeError "No closing backtick found") <->
   exists p, first_occurrence marker data p /\
     forall k, ~ delimiter_at false (text_from data (p + String.length marker)) k) /\
  ((exists content, extract data = Ok content) <->
   exists p k, first_occurrence marker data p /\
     delimiter_at false (text_from data (p + String.length marker)) k) /\
  match extract data with
  | Ok _ => True
  | Raise e => e = ValueError "substring not found" \/
               e = RuntimeError "No closing backtick found"
  end.
Proof.
  destruct (String.index 0 marker data) as [p|] eqn:Hi.
  - apply (index_first_occurrence _ _ _ marker_nonempty) in Hi.
    assert (Hocc : ~ forall q, ~ occurs_at marker data q).
    { intros H. exact (H p (proj1 Hi)). }
    rewrite (extract_spec _ _ Hi).
    destruct (find_terminator false (text_from data (p + String.length marker)))
      as [k|] eqn:Hf.
    + pose proof (proj1 (find_terminator_Some _ _ _) Hf) as [Hk _].
      split; [split; [discriminate | intros H; contradiction]|].
      split; [split; [discriminate|]|].
      { intros (q & Hq & Hnone).
        rewrite (first_occurrence_unique _ _ _ _ Hq Hi) in Hnone.
        exfalso. exact (Hnone k Hk). }
      split; [|exact I].
      split; [intros _; now exists p, k | intros _; eauto].
    + pose proof (proj1 (find_terminator_None _ _) Hf) as Hnone.
      split; [split; [discriminate | intros H; contradiction]|].
      split; [split; [intros _; now exists p | reflexivity]|].
      split; [|now right].
      split; [intros [c Hc]; discriminate|].
      intros (q & k & Hq & Hk).
      rewrite (first_occurrence_unique _ _ _ _ Hq Hi) in Hk.
      exfalso. exact (Hnone k Hk).
  - pose proof (proj1 (index_None _ _ marker_nonempty) Hi) as Habsent.
    rewrite (extract_absent _ Habsent).
    split; [split; [intros _; exact Habsent | reflexivity]|].
    split; [split; [discriminate|]|].
    { intros (q & [Hq _] & _). exfalso. exact (Habsent q Hq). }
    split; [|now left].
    split; [intros [c Hc]; discriminate|].
    intros (q & k & [Hq _] & _). exfalso. exact (Habsent q Hq).
Qed.

(** X3.  The loop started inside the text, with any [out] and any flag,
    never raises.  When it breaks, the cursor stands on a backtick inside
    the text, the flag is clear, and [out] has grown by the characters from
    the start to the cursor, the backtick last.  When it runs off the end,
    the cursor is [len(data)], [out] has grown by all the text from the
    start, and the flag is the one that text leaves. *)
Theorem loop_postcondition
    (data : string) (start : nat) (o : list ascii) (e : bool) :
  start <= String.length data ->
  match while_loop data (mkState start o e) with
  | Broke st =>
      start <= i st < String.length data /\
      String.get (i st) data = Some backtick /\
      escaped st = false /\
      out st =
        o ++ String.list_ascii_of_string
               (String.substring start (i st - start) data) ++ [backtick]
  | Exhausted st =>
      i st = String.length data /\
      out st = o ++ String.list_ascii_of_string (text_from data start) /\
      escaped st = flag_after e (text_from data start)
  | Raised _ => False
  end.
Proof.
  intros Hle. destruct (text_from_split data start Hle) as [Hsplit Hlen].
  pose proof (while_loop_scan (text_from data start)
                (String.substring 0 start data) o e) as Hloop.
  rewrite <- Hsplit, Hlen in Hloop. rewrite Hloop. clear Hloop.
  destruct (find_terminator e (text_from data start)) as [k|] eqn:Hf.
  - apply find_terminator_Some in Hf as [[Hget _] _].
    pose proof (str_get_lt _ _ _ Hget) as Hk.
    rewrite text_from_length in Hk. cbn [i out escaped].
    split; [lia|]. split; [now rewrite <- text_from_get|].
    split; [reflexivity|].
    rewrite (str_substring_snoc _ _ _ Hget), str_to_list_app.
    rewrite text_from_substring by lia.
    replace (start + k - start) with k by lia. reflexivity.
  - cbn [i out escaped]. rewrite text_from_length.
    split; [lia|]. now split.
Qed.

Lemma loop_postcondition_witness :
  19 <= String.length sample_text /\
  match while_loop sample_text (mkState 19 [] false) with
  | Broke st =>
      19 <= i st < String.length sample_text /\
      String.get (i st) sample_text = Some backtick /\
      escaped st = false /\
      out st =
        [] ++ String.list_ascii_of_string
                (String.substring 19 (i st - 19) sample_text) ++ [backtick]
  | Exhausted st =>
      i st = String.length sample_text /\
      out st = [] ++ String.list_ascii_of_string (text_from sample_text 19) /\
      escaped st = flag_after false (text_from sample_text 19)
  | Raised _ => False
  end.
Proof.
  split; [vm_compute; lia|].
  apply (loop_postcondition sample_text 19 [] false). vm_compute. lia.
Defined.

(** A stretch without unescaped delimiter that leaves the flag clear,
    written between the marker and a backtick, is extracted as it stands. *)
Lemma extract_marker_content u rest :
  find_terminator false u = None ->
  flag_after false u = false ->
  extract (marker +:+ u +:+ String backtick rest) = Ok u.
Proof.
  intros Hu Hflag. rewrite extract_marker_front, find_terminator_app, Hu, Hflag.
  cbn [find_terminator]. change (Ascii.eqb backtick backtick) with true.
  cbn [andb negb fmap option_fmap option_map].
  rewrite Nat.add_0_r. now rewrite str_substring_app_exact.
Qed.

Lemma fstring_marker content :
  fstring content =
  marker +:+ content +:+
  String backtick (";" +:+ String newline output_statement).
Proof. reflexivity. Qed.

(** X4.  The file the script writes is a text the script accepts: extraction
    from it returns the same content, and a run of the script with that
    file as its input writes the same file again. *)
Theorem output_extracts_to_same_content (fs fs' : filesystem) (data : string) :
  fs !! input_path = Some data ->
  main fs = (fs', Ok tt) ->
  exists content text,
    extract data = Ok content /\
    fs' !! output_path = Some text /\
    extract text = Ok content /\
    main (<[input_path := text]> fs') = (<[input_path := text]> fs', Ok tt).
Proof.
  intros Hread Hmain. rewrite (main_read _ _ Hread) in Hmain.
  destruct (extract data) as [content|e] eqn:Hext; [|discriminate].
  injection Hmain as <-.
  destruct (extract_Ok_content _ _ Hext) as [Hnone Hflag].
  assert (Hback : extract (fstring content) = Ok content).
  { rewrite fstring_marker. now apply extract_marker_content. }
  exists content, (fstring content).
  split; [reflexivity|]. unfold write_text.
  split; [apply lookup_insert_eq|]. split; [exact Hback|].
  rewrite (main_read _ (fstring content)) by apply lookup_insert_eq.
  rewrite Hback. unfold write_text. f_equal.
  apply insert_id.
  rewrite (lookup_insert_ne _ input_path output_path) by discriminate.
  apply lookup_insert_eq.
Qed.

Lemma output_extracts_to_same_content_witness :
  sample_fs !! input_path = Some sample_text /\
  main sample_fs = (write_text sample_fs output_path (fstring "a\`b"), Ok tt) /\
  exists content text,
    extract sample_text = Ok content /\
    write_text sample_fs output_path (fstring "a\`b") !! output_path = Some text /\
    extract text = Ok content /\
    main (<[input_path := text]> (write_text sample_fs output_path (fstring "a\`b")))
    = (<[input_path := text]> (write_text sample_fs output_path (fstring "a\`b")),
       Ok tt).
Proof.
  split; [reflexivity|]. split; [reflexivity|].
  apply (output_extracts_to_same_content sample_fs _ sample_text); reflexivity.
Defined.



(** X6.  Text before the marker that holds no backtick plays no part: the
    marker written behind it is its first occurrence, and the script
    extracts what it would extract from the marker on. *)
Theorem extract_ignores_clean_prefix (pre region : string) :
  no_backtick pre ->
  first_occurrence marker (pre +:+ marker +:+ region) (String.length pre) /\
  extract (pre +:+ marker +:+ region) = extract (marker +:+ region).
Proof.
  intros Hclean.
  pose proof (first_occurrence_behind_clean pre region Hclean) as Hfirst.
  split; [exact Hfirst | now apply extract_behind_prefix].
Qed.

Lemma extract_ignores_clean_prefix_witness :
  no_backtick "let x; " /\
  first_occurrence marker ("let x; " +:+ marker +:+ "a\`b`; const js = `c`")
    (String.length "let x; ") /\
  extract ("let x; " +:+ marker +:+ "a\`b`; const js = `c`")
  = extract (marker +:+ "a\`b`; const js = `c`").
Proof.
  assert (Hclean : no_backtick "let x; ").
  { intros j. do 8 (destruct j as [|j]; [discriminate|]). discriminate. }
  split; [exact Hclean|].
  apply (extract_ignores_clean_prefix "let x; " "a\`b`; const js = `c`").
  exact Hclean.
Defined.

(** X7.  When extraction returns [content], the text is some [pre], the
    marker, the content, a backtick and some [rest]; and whatever stands in
    place of [rest], the same content is extracted: nothing behind the
    terminating backtick is looked at. *)
Theorem extract_ignores_text_behind_terminator (data content : string) :
  extract data = Ok content ->
  exists pre rest,
    data = pre +:+ marker +:+ content +:+ String backtick rest /\
    first_occurrence marker data (String.length pre) /\
    forall rest',
      extract (pre +:+ marker +:+ content +:+ String backtick rest') = Ok content.
Proof.
  intros Hext.
  destruct (extract_Ok_split _ _ Hext) as (pre & rest & Hdata & Hfirst).
  destruct (extract_Ok_content _ _ Hext) as [Hnone Hflag].
  exists pre, rest. split; [exact Hdata|]. split; [exact Hfirst|].
  intros rest'. rewrite extract_behind_prefix.
  - now apply extract_marker_content.
  - rewrite Hdata in Hfirst. rewrite <- str_app_assoc in Hfirst |- *.
    assert (Hle : String.length pre + String.length marker
                  <= String.length (pre +:+ marker))
      by (rewrite str_length_app; lia).
    exact (first_occurrence_front _ _ _ _ Hle Hfirst).
Qed.

Lemma extract_ignores_text_behind_terminator_witness :
  extract sample_text = Ok "a\`b" /\
  exists pre rest,
    sample_text = pre +:+ marker +:+ "a\`b" +:+ String backtick rest /\
    first_occurrence marker sample_text (String.length pre) /\
    forall rest',
      extract (pre +:+ marker +:+ "a\`b" +:+ String backtick rest') = Ok "a\`b".
Proof.
  split; [reflexivity|].
  apply (extract_ignores_text_behind_terminator sample_text). reflexivity.
Defined.

(** X8.  Over any stretch [s] of text that holds no unescaped delimiter, the
    loop arrives behind [s] with the flag set exactly when the run of
    backslashes that ends [s] has odd length; [trailing_backslashes s] is
    the length of that run: [s] is a text that does not end in a backslash,
    followed by that many backslashes. *)
Theorem flag_is_parity_of_trailing_run
    (pre s rest : string) (o : list ascii) :
  (forall k, ~ delimiter_at false s k) ->
  while_loop (pre +:+ s +:+ rest) (mkState (String.length pre) o false) =
  while_loop (pre +:+ s +:+ rest)
    (mkState (String.length pre + String.length s)
       (o ++ String.list_ascii_of_string s)
       (Nat.odd (trailing_backslashes s))) /\
  exists t,
    s = t +:+ backslashes (trailing_backslashes s) /\
    last_char t <> Some backslash.
Proof.
  intros Hnone. apply find_terminator_None in Hnone. split.
  - rewrite (while_loop_skip _ _ _ _ _ Hnone). now rewrite flag_after_parity.
  - exact (trailing_run_spec 0 s).
Qed.

Lemma flag_is_parity_of_trailing_run_witness :
  (forall k, ~ delimiter_at false ("a\`b" +:+ backslashes 3) k) /\
  while_loop (marker +:+ ("a\`b" +:+ backslashes 3) +:+ "`c`")
    (mkState (String.length marker) [] false) =
  while_loop (marker +:+ ("a\`b" +:+ backslashes 3) +:+ "`c`")
    (mkState (String.length marker + String.length ("a\`b" +:+ backslashes 3))
       ([] ++ String.list_ascii_of_string ("a\`b" +:+ backslashes 3))
       (Nat.odd (trailing_backslashes ("a\`b" +:+ backslashes 3)))) /\
  exists t,
    "a\`b" +:+ backslashes 3 =
      t +:+ backslashes (trailing_backslashes ("a\`b" +:+ backslashes 3)) /\
    last_char t <> Some backslash.
Proof.
  assert (Hnone : forall k, ~ delimiter_at false ("a\`b" +:+ backslashes 3) k).
  { apply find_terminator_None. reflexivity. }
  split; [exact Hnone|].
  apply (flag_is_parity_of_trailing_run marker _ "`c`" []). exact Hnone.
Defined.

(** X9.  In an extracted content every backtick stands right behind a
    backslash, at the end of a run of backslashes of odd length, and the
    content itself ends in a run of even length (possibly none): written
    between backticks, the content closes no template literal early. *)
Theorem content_backticks_escaped (data content : string) :
  extract data = Ok content ->
  Nat.even (trailing_backslashes content) = true /\
  forall j, String.get j content = Some backtick ->
    Nat.odd (trailing_backslashes (String.substring 0 j content)) = true /\
    exists j', j = S j' /\ String.get j' content = Some backslash.
Proof.
  intros Hext. destruct (extract_Ok_content _ _ Hext) as [Hnone Hflag].
  split.
  - rewrite flag_after_parity, <- Nat.negb_even in Hflag.
    now apply negb_false_iff in Hflag.
  - intros j Hj.
    assert (Hset : flag_after false (String.substring 0 j content) = true).
    { apply not_false_iff_true. intros Hclear.
      apply (proj1 (find_terminator_None _ _) Hnone j). now split. }
    split; [now rewrite <- flag_after_parity|].
    pose proof (str_get_lt _ _ _ Hj) as Hlt.
    assert (Hlen : String.length (String.substring 0 j content) = j).
    { rewrite str_substring_length. lia. }
    destruct j as [|j'].
    { rewrite str_substring_n_0 in Hset. discriminate. }
    exists j'. split; [reflexivity|].
    assert (Hne : String.substring 0 (S j') content <> "").
    { intros H. rewrite H in Hlen. discriminate. }
    pose proof (flag_after_set_last _ _ Hne Hset) as Hlast.
    rewrite last_char_get, Hlen in Hlast.
    rewrite String.substring_correct1, Nat.add_0_r in Hlast by lia.
    exact Hlast.
Qed.

Lemma content_backticks_escaped_witness :
  extract sample_text = Ok "a\`b" /\
  Nat.even (trailing_backslashes "a\`b") = true /\
  forall j, String.get j "a\`b" = Some backtick ->
    Nat.odd (trailing_backslashes (String.substring 0 j "a\`b")) = true /\
    exists j', j = S j' /\ String.get j' "a\`b" = Some backslash.
Proof.
  split; [reflexivity|].
  apply (content_backticks_escaped sample_text). reflexivity.
Defined.
